(** * The mCaptcha widget: challenge, solve, submit

    A shallow embedding of [templates/widget/index.ts] (the Orchestrator that
    owns the Worker, fetches a PoW configuration, submits the work and relays
    the token) and of [templates/widget/service-worker.ts] (the Worker's
    message handler).

    The Orchestrator is asynchronous JavaScript: a handler runs until its
    next [await], is parked, and is resumed when the awaited promise settles;
    other handlers may run in between.  Handlers are therefore embedded as
    terms of a small resumption monad [proc], and the page runs them one
    event at a time. *)

From Stdlib Require Import List String NArith Bool Arith Lia.
Import ListNotations.
Local Open Scope string_scope.
Local Open Scope list_scope.

(* ===================================================================== *)
(** ** Data exchanged between the parts ([./types]) *)
(* ===================================================================== *)

(** Modelled from the spec: the declaration of [PoWConfig] lives in
    [./types], which is not part of the sources; the spec gives a Challenge
    the fields {key, string/salt, duration}.  The Orchestrator only ever
    reads [config.string]. *)
Record PoWConfig : Type := mkPoWConfig {
  pow_key : string;
  pow_string : string;
  pow_duration : N
}.

(** What the search returns: [resp.payload.work.nonce] and
    [resp.payload.work.result]. *)
Record WasmWork : Type := mkWasmWork {
  nonce : N;
  result : string
}.

(** [const payload: ServiceWorkerWork = { work }]. *)
Record ServiceWorkerWork : Type := mkServiceWorkerWork {
  work : WasmWork
}.

(** The object literal built in the ["result"] branch of [worker.onmessage]. *)
Record Work : Type := mkWork {
  work_key : string;
  work_string : string;
  work_nonce : N;
  work_result : string
}.

Record Token : Type := mkToken {
  token : string
}.

(** A message posted by the Worker.  It is a JavaScript object: the [type]
    tag is always there, [nonce] is carried by progress messages and
    [payload] by result messages. *)
Record ServiceWorkerAction : Type := mkAction {
  type : string;
  msg_nonce : option N;
  payload : option ServiceWorkerWork
}.

(** A thrown value / rejection reason. *)
Definition error : Type := string.

(** How an awaited promise settles. *)
Inductive awaited (A : Type) : Type :=
| Resolved (a : A)
| Rejected (e : error).
Arguments Resolved {A} a.
Arguments Rejected {A} e.

(* ===================================================================== *)
(** ** Observable calls *)
(* ===================================================================== *)

(** The calls the Orchestrator makes on its collaborators, and its writes of
    the guard flag, in program order. *)
Inductive effect : Type :=
| WriteLOCK (b : bool)                 (* LOCK = b *)
| messageText_during                   (* CONST.messageText().during() *)
| messageText_error                    (* CONST.messageText().error() *)
| messageText_after                    (* CONST.messageText().after() *)
| console_error (e : error)            (* console.error(e) *)
| fetchPoWConfig_call                  (* fetchPoWConfig() *)
| worker_postMessage (c : PoWConfig)   (* worker.postMessage(config) *)
| sendWork_call (p : Work)             (* sendWork(proof) *)
| sendToParent (t : Token)             (* sendToParent(token) *)
| btn_checked (b : bool).              (* CONST.btn().checked = b *)

Definition is_fetch (x : effect) : bool :=
  match x with fetchPoWConfig_call => true | _ => false end.
Definition is_relay (x : effect) : bool :=
  match x with sendToParent _ => true | _ => false end.
Definition is_release (x : effect) : bool :=
  match x with WriteLOCK false => true | _ => false end.
Definition is_error_indicator (x : effect) : bool :=
  match x with messageText_error => true | _ => false end.

Definition count (p : effect -> bool) (l : list effect) : nat :=
  List.length (filter p l).

(* ===================================================================== *)
(** ** Asynchronous procedures *)
(* ===================================================================== *)

(** A handler body: synchronous steps, reads and writes of the two module
    variables [LOCK] and [config], and the two awaited calls. *)
Inductive proc (A : Type) : Type :=
| Ret (a : A)
| Throw (e : error)
| Call (c : effect) (k : proc A)
| SetLOCK (b : bool) (k : proc A)
| SetConfig (c : PoWConfig) (k : proc A)
| GetConfig (k : option PoWConfig -> proc A)
| AwaitFetch (k : awaited PoWConfig -> proc A)
| AwaitSend (p : Work) (k : awaited Token -> proc A).
Arguments Ret {A} a.
Arguments Throw {A} e.
Arguments Call {A} c k.
Arguments SetLOCK {A} b k.
Arguments SetConfig {A} c k.
Arguments GetConfig {A} k.
Arguments AwaitFetch {A} k.
Arguments AwaitSend {A} p k.

Fixpoint bind {A B : Type} (m : proc A) (f : A -> proc B) : proc B :=
  match m with
  | Ret a => f a
  | Throw e => Throw e
  | Call c k => Call c (bind k f)
  | SetLOCK b k => SetLOCK b (bind k f)
  | SetConfig c k => SetConfig c (bind k f)
  | GetConfig k => GetConfig (fun x => bind (k x) f)
  | AwaitFetch k => AwaitFetch (fun r => bind (k r) f)
  | AwaitSend p k => AwaitSend p (fun r => bind (k r) f)
  end.

(** [try { body } catch (e) { handler e }]: a throw of the body, also one
    after an [await], runs the handler. *)
Fixpoint try_catch {A : Type} (body : proc A) (handler : error -> proc A)
  : proc A :=
  match body with
  | Ret a => Ret a
  | Throw e => handler e
  | Call c k => Call c (try_catch k handler)
  | SetLOCK b k => SetLOCK b (try_catch k handler)
  | SetConfig c k => SetConfig c (try_catch k handler)
  | GetConfig k => GetConfig (fun x => try_catch (k x) handler)
  | AwaitFetch k => AwaitFetch (fun r => try_catch (k r) handler)
  | AwaitSend p k => AwaitSend p (fun r => try_catch (k r) handler)
  end.

Declare Scope proc_scope.
Delimit Scope proc_scope with proc.
Notation "x <- m ;; k" := (bind m (fun x => k))
  (at level 61, m at next level, right associativity) : proc_scope.
Notation "m ;; k" := (bind m (fun _ => k))
  (at level 61, right associativity) : proc_scope.
Local Open Scope proc_scope.

Definition call (c : effect) : proc unit := Call c (Ret tt).
Definition set_LOCK (b : bool) : proc unit := SetLOCK b (Ret tt).
Definition set_config (c : PoWConfig) : proc unit := SetConfig c (Ret tt).
Definition get_config : proc (option PoWConfig) := GetConfig Ret.

(** [await p]: the value of a resolved promise, a throw for a rejected one. *)
Definition settled {A : Type} (r : awaited A) : proc A :=
  match r with
  | Resolved a => Ret a
  | Rejected e => Throw e
  end.

(** [await fetchPoWConfig()] and [await sendWork(proof)]. *)
Definition fetchPoWConfig : proc PoWConfig := AwaitFetch settled.
Definition sendWork (proof : Work) : proc Token := AwaitSend proof settled.

(** Reading a property of [undefined] throws a [TypeError]. *)
Definition member {A B : Type} (what : string) (o : option A) (f : A -> B)
  : proc B :=
  match o with
  | Some a => Ret (f a)
  | None => Throw ("TypeError: cannot read properties of undefined: " ++ what)%string
  end.

(* ===================================================================== *)
(** ** The Orchestrator ([index.ts]) *)
(* ===================================================================== *)

Section Orchestrator.

(** [CONST.sitekey()]: [./const] is not part of the sources; the key the
    widget was loaded with is a parameter of the page. *)
Variable sitekey : string.

(** [export const solveCaptchaRunner = async (): Promise<void> => ...] *)
Definition solveCaptchaRunner : proc unit :=
  try_catch
    (set_LOCK true ;;
     call messageText_during ;;
     c <- fetchPoWConfig ;;
     set_config c ;;
     call (worker_postMessage c))
    (fun e =>
     call messageText_error ;;
     call (console_error e) ;;
     set_LOCK false).

(** [worker.onmessage = async (event: MessageEvent) => ...]; the [switch]
    has the two cases ["init"] and ["result"] and no [default]. *)
Definition onmessage (resp : ServiceWorkerAction) : proc unit :=
  if String.eqb (type resp) "init" then
    solveCaptchaRunner
  else if String.eqb (type resp) "result" then
    cfg <- get_config ;;
    str <- member "string" cfg pow_string ;;
    w <- member "work" (payload resp) work ;;
    let proof := {| work_key := sitekey;
                    work_string := str;
                    work_nonce := nonce w;
                    work_result := result w |} in
    tok <- sendWork proof ;;
    call (sendToParent tok) ;;
    call (btn_checked true) ;;
    call messageText_after ;;
    set_LOCK false
  else
    Ret tt.

End Orchestrator.

(* ===================================================================== *)
(** ** The page: module variables, parked handlers, event loop *)
(* ===================================================================== *)

(** A handler parked at an [await], with what it does once the promise
    settles. *)
Inductive task : Type :=
| FetchTask (k : awaited PoWConfig -> proc unit)
| SendTask (k : awaited Token -> proc unit).

Record page : Type := mkPage {
  LOCK : bool;                  (* let LOCK = false *)
  config : option PoWConfig;    (* let config: PoWConfig *)
  pending : list task;          (* handlers parked at an await *)
  log : list effect;            (* calls made so far, oldest first *)
  unhandled : list error        (* rejections nobody caught *)
}.

Definition initial : page :=
  {| LOCK := false; config := None; pending := []; log := []; unhandled := [] |}.

Definition emit (x : effect) (s : page) : page :=
  {| LOCK := LOCK s; config := config s; pending := pending s;
     log := log s ++ [x]; unhandled := unhandled s |}.

Definition park (t : task) (s : page) : page :=
  {| LOCK := LOCK s; config := config s; pending := pending s ++ [t];
     log := log s; unhandled := unhandled s |}.

Definition write_LOCK (b : bool) (s : page) : page :=
  {| LOCK := b; config := config s; pending := pending s;
     log := log s ++ [WriteLOCK b]; unhandled := unhandled s |}.

Definition write_config (c : PoWConfig) (s : page) : page :=
  {| LOCK := LOCK s; config := Some c; pending := pending s;
     log := log s; unhandled := unhandled s |}.

Definition reject (e : error) (s : page) : page :=
  {| LOCK := LOCK s; config := config s; pending := pending s;
     log := log s; unhandled := unhandled s ++ [e] |}.

(** Run a handler up to its next [await] (or to its end). *)
Fixpoint exec (p : proc unit) (s : page) : page :=
  match p with
  | Ret _ => s
  | Throw e => reject e s
  | Call c k => exec k (emit c s)
  | SetLOCK b k => exec k (write_LOCK b s)
  | SetConfig c k => exec k (write_config c s)
  | GetConfig k => exec (k (config s)) s
  | AwaitFetch k => park (FetchTask k) (emit fetchPoWConfig_call s)
  | AwaitSend p k => park (SendTask k) (emit (sendWork_call p) s)
  end.

Fixpoint remove_nth {A : Type} (i : nat) (l : list A) : list A :=
  match i, l with
  | _, [] => []
  | O, _ :: l' => l'
  | S i', x :: l' => x :: remove_nth i' l'
  end.

Definition unpark (i : nat) (s : page) : page :=
  {| LOCK := LOCK s; config := config s; pending := remove_nth i (pending s);
     log := log s; unhandled := unhandled s |}.

(** What the outside world answers to an awaited call. *)
Inductive response : Type :=
| ConfigResponse (r : awaited PoWConfig)
| TokenResponse (r : awaited Token).

(** What can happen to the page. *)
Inductive event : Type :=
| Trigger                                   (* solveCaptchaRunner() is called *)
| WorkerMessage (m : ServiceWorkerAction)   (* worker.onmessage fires *)
| Settles (i : nat) (r : response).         (* the i-th parked await settles *)

Section Page.

Variable sitekey : string.

Definition settle (i : nat) (r : response) (s : page) : page :=
  match nth_error (pending s) i, r with
  | Some (FetchTask k), ConfigResponse a => exec (k a) (unpark i s)
  | Some (SendTask k), TokenResponse a => exec (k a) (unpark i s)
  | _, _ => s
  end.

Definition step (ev : event) (s : page) : page :=
  match ev with
  | Trigger => exec solveCaptchaRunner s
  | WorkerMessage m => exec (onmessage sitekey m) s
  | Settles i r => settle i r s
  end.

Fixpoint run (evs : list event) (s : page) : page :=
  match evs with
  | [] => s
  | ev :: evs' => run evs' (step ev s)
  end.

End Page.

(* ===================================================================== *)
(** ** The Worker ([service-worker.ts]) *)
(* ===================================================================== *)

Module Worker.

(** [const ready: ServiceWorkerMessage = { type: "ready" }]. *)
Definition ready : ServiceWorkerAction :=
  {| type := "ready"; msg_nonce := None; payload := None |}.

(** The two top-level posts of the script: [postMessage(ready)] and
    [postMessage({type: 'init'})]. *)
Definition startup : list ServiceWorkerAction :=
  [ready; {| type := "init"; msg_nonce := None; payload := None |}].

(** [progressCallback]: the message it would post for a nonce. *)
Definition progressCallback (n : N) : ServiceWorkerAction :=
  {| type := "progress"; msg_nonce := Some n; payload := None |}.

(** The body of the handler: posts, a throw, or the end. *)
Inductive script : Type :=
| Post (m : ServiceWorkerAction) (k : script)
| Raise (e : error)
| Done.

(** Reading an identifier that no import, declaration or parameter binds
    throws a [ReferenceError]; what would have used the value does not
    run. *)
Definition unbound {A : Type} (name : string) (k : A -> script) : script :=
  Raise ("ReferenceError: " ++ name ++ " is not defined")%string.

(** [onmessage = async (e) => ...].  After [console.debug], the binding of
    [config] and the declaration of [progressCallback] (which is handed to
    nobody), the handler builds [payload] from [work], builds [res] from
    [w], and posts the payload under the tag ['result'].  Neither [work]
    nor [w] is bound anywhere in the script: [prove] is imported and never
    called. *)
Definition onmessage (config : PoWConfig) : script :=
  unbound "work" (fun work : WasmWork =>
    let payload := {| work := work |} in
    unbound "w" (fun w : WasmWork =>
      Post {| type := "result"; msg_nonce := None; payload := Some payload |}
        Done)).

(** One run of the handler: what it posted, and the rejection of its
    promise when it threw.  The handler is [async], so a throw rejects the
    promise it returned and goes no further. *)
Record handled : Type := mkHandled {
  posted : list ServiceWorkerAction;
  rejected : option error
}.

Fixpoint handle (p : script) : handled :=
  match p with
  | Post m k =>
      let h := handle k in
      {| posted := m :: posted h; rejected := rejected h |}
  | Raise e => {| posted := []; rejected := Some e |}
  | Done => {| posted := []; rejected := None |}
  end.

(** The runs of the handler over the life of the Worker: one per message
    received, in order; a run that rejected does not keep the next message
    from being handled. *)
Definition runs (requests : list PoWConfig) : list handled :=
  map (fun c => handle (onmessage c)) requests.

(** The Worker over its life: the start-up posts, then what each run of
    the handler posted. *)
Definition serve (requests : list PoWConfig) : list ServiceWorkerAction :=
  startup ++ flat_map posted (runs requests).

Definition is_result (m : ServiceWorkerAction) : bool :=
  String.eqb (type m) "result".

End Worker.

(* ===================================================================== *)
(** ** Fixtures *)
(* ===================================================================== *)

Module Fixture.

Definition k1_salt1 : PoWConfig :=
  {| pow_key := "k1"; pow_string := "salt1"; pow_duration := 30 |}.
Definition k1_salt2 : PoWConfig :=
  {| pow_key := "k1"; pow_string := "salt2"; pow_duration := 30 |}.

Definition found (n : N) (digest : string) : ServiceWorkerAction :=
  {| type := "result"; msg_nonce := None;
     payload := Some {| work := {| nonce := n; result := digest |} |} |}.

Definition init : ServiceWorkerAction :=
  {| type := "init"; msg_nonce := None; payload := None |}.

Definition tok_789 : Token := {| token := "tok-789" |}.

End Fixture.

(* ===================================================================== *)
(** ** The two continuations of the Orchestrator *)
(* ===================================================================== *)

(** [solveCaptchaRunner] from its [await fetchPoWConfig()] on, still inside
    its [try]. *)
Definition runner_resume (r : awaited PoWConfig) : proc unit :=
  try_catch
    (c <- settled r ;;
     set_config c ;;
     call (worker_postMessage c))
    (fun e =>
     call messageText_error ;;
     call (console_error e) ;;
     set_LOCK false).

(** The ["result"] branch from its [await sendWork(proof)] on; it is under
    no [try]. *)
Definition result_resume (r : awaited Token) : proc unit :=
  tok <- settled r ;;
  call (sendToParent tok) ;;
  call (btn_checked true) ;;
  call messageText_after ;;
  set_LOCK false.

(** The proof object of the ["result"] branch. *)
Definition proof_of (sitekey : string) (c : PoWConfig) (w : WasmWork) : Work :=
  {| work_key := sitekey;
     work_string := pow_string c;
     work_nonce := nonce w;
     work_result := result w |}.

(** The parked handlers of a page are handlers of this program. *)
Definition known (t : task) : Prop :=
  t = FetchTask runner_resume \/ t = SendTask result_resume.

Definition wf (s : page) : Prop := Forall known (pending s).

Definition is_send_task (t : task) : bool :=
  match t with SendTask _ => true | FetchTask _ => false end.

Definition submitting (s : page) : nat :=
  List.length (filter is_send_task (pending s)).

Definition is_result_event (ev : event) : bool :=
  match ev with
  | WorkerMessage m => String.eqb (type m) "result"
  | _ => false
  end.

Definition results_received (evs : list event) : nat :=
  List.length (filter is_result_event evs).

(** The configs posted to the Worker and the proofs submitted, oldest
    first. *)
Fixpoint posts (l : list effect) : list PoWConfig :=
  match l with
  | [] => []
  | worker_postMessage c :: l' => c :: posts l'
  | _ :: l' => posts l'
  end.

Fixpoint submits (l : list effect) : list Work :=
  match l with
  | [] => []
  | sendWork_call p :: l' => p :: submits l'
  | _ :: l' => submits l'
  end.

Definition last_post (l : list effect) : option PoWConfig :=
  last (map Some (posts l)) None.

(* ===================================================================== *)
(** ** The transitions of the page *)
(* ===================================================================== *)

(** What one event can do to a page, case by case. *)
Inductive fired (sitekey : string) (s : page) : event -> page -> Prop :=
| fired_trigger :
    fired sitekey s Trigger
      (park (FetchTask runner_resume)
         (emit fetchPoWConfig_call (emit messageText_during (write_LOCK true s))))
| fired_init m :
    type m = "init" ->
    fired sitekey s (WorkerMessage m)
      (park (FetchTask runner_resume)
         (emit fetchPoWConfig_call (emit messageText_during (write_LOCK true s))))
| fired_submit m c w :
    type m = "result" -> config s = Some c -> payload m = Some w ->
    fired sitekey s (WorkerMessage m)
      (park (SendTask result_resume)
         (emit (sendWork_call (proof_of sitekey c (work w))) s))
| fired_type_error m e :
    type m = "result" -> config s = None \/ payload m = None ->
    fired sitekey s (WorkerMessage m) (reject e s)
| fired_ignored m :
    type m <> "init" -> type m <> "result" ->
    fired sitekey s (WorkerMessage m) s
| fired_dispatch i c :
    nth_error (pending s) i = Some (FetchTask runner_resume) ->
    fired sitekey s (Settles i (ConfigResponse (Resolved c)))
      (emit (worker_postMessage c) (write_config c (unpark i s)))
| fired_caught i e :
    nth_error (pending s) i = Some (FetchTask runner_resume) ->
    fired sitekey s (Settles i (ConfigResponse (Rejected e)))
      (write_LOCK false
         (emit (console_error e) (emit messageText_error (unpark i s))))
| fired_done i tok :
    nth_error (pending s) i = Some (SendTask result_resume) ->
    fired sitekey s (Settles i (TokenResponse (Resolved tok)))
      (write_LOCK false
         (emit messageText_after
            (emit (btn_checked true) (emit (sendToParent tok) (unpark i s)))))
| fired_uncaught i e :
    nth_error (pending s) i = Some (SendTask result_resume) ->
    fired sitekey s (Settles i (TokenResponse (Rejected e))) (reject e (unpark i s))
| fired_stale i r :
    fired sitekey s (Settles i r) s.

(* ===================================================================== *)
(** ** The document and the loading of the script ([index.ts], top level) *)
(* ===================================================================== *)

(** The one property of an element that the script writes:
    [style.display]. *)
Record HTMLElement : Type := mkHTMLElement {
  style_display : string
}.

(** The document as the script sees it: what
    [document.querySelector(".widget__verification-container")] returns,
    nothing for [null]. *)
Record document : Type := mkDocument {
  verification_container : option HTMLElement
}.

(** [export const registerVerificationEventHandler = (): void => ...]: the
    cast to [HTMLElement] checks nothing, so with no such element the
    write of [.style] throws. *)
Definition registerVerificationEventHandler (doc : document)
  : error + document :=
  match verification_container doc with
  | None => inl "TypeError: cannot read properties of null: style"
  | Some _ =>
      inr {| verification_container := Some {| style_display := "flex" |} |}
  end.

(** The page once the script has been evaluated. *)
Record widget : Type := mkWidget {
  dom : document;
  orchestrator : page;
  load_error : option error    (* what the evaluation of the script threw *)
}.

(** The top level of the script, in order: [let LOCK = false], the Worker
    is created, [registerVerificationEventHandler()] is called, and only
    then [worker.onmessage] is assigned.  A throw of the call ends the
    evaluation there. *)
Definition load (doc : document) : widget :=
  match registerVerificationEventHandler doc with
  | inl e => {| dom := doc; orchestrator := initial; load_error := Some e |}
  | inr doc' => {| dom := doc'; orchestrator := initial; load_error := None |}
  end.

(** An event on a loaded widget.  When the evaluation of the script threw,
    [worker.onmessage] was never assigned and the module has no exports:
    messages of the Worker find no handler and nothing can call
    [solveCaptchaRunner]. *)
Definition widget_step (sitekey : string) (ev : event) (w : widget) : widget :=
  match load_error w with
  | Some _ => w
  | None =>
      {| dom := dom w;
         orchestrator := step sitekey ev (orchestrator w);
         load_error := None |}
  end.

Fixpoint widget_run (sitekey : string) (evs : list event) (w : widget)
  : widget :=
  match evs with
  | [] => w
  | ev :: evs' => widget_run sitekey evs' (widget_step sitekey ev w)
  end.

(* ===================================================================== *)
(** ** Whole cycles and what a log holds *)
(* ===================================================================== *)

(** A result message of the Worker carrying the work [w]. *)
Definition result_message (w : WasmWork) : ServiceWorkerAction :=
  {| type := "result"; msg_nonce := None; payload := Some {| work := w |} |}.

(** One solve cycle run to its end with nothing else in between: the entry
    point is called, the fetch resolves with [c], the Worker answers with
    [w], the submission resolves with [tok]. *)
Definition cycle (x : PoWConfig * WasmWork * Token) : list event :=
  let '(c, w, tok) := x in
  [Trigger;
   Settles 0 (ConfigResponse (Resolved c));
   WorkerMessage (result_message w);
   Settles 0 (TokenResponse (Resolved tok))].

(** The tokens relayed to the parent, oldest first. *)
Fixpoint relayed (l : list effect) : list Token :=
  match l with
  | [] => []
  | sendToParent t :: l' => t :: relayed l'
  | _ :: l' => relayed l'
  end.

Definition is_fetch_task (t : task) : bool :=
  match t with FetchTask _ => true | SendTask _ => false end.

(** The config fetches still awaited. *)
Definition fetching (s : page) : nat :=
  List.length (filter is_fetch_task (pending s)).

(** Every fetch issued has been answered by a post to the Worker or by the
    error message, or is still awaited. *)
Definition fetches_balanced (s : page) : Prop :=
  count is_fetch (log s) =
  (List.length (posts (log s)) + count is_error_indicator (log s)
   + fetching s)%nat.

(** [n] result messages have each ended in a relay, in an unhandled
    rejection, or in a submission still awaited. *)
Definition results_balanced (s : page) (n : nat) : Prop :=
  n = (count is_relay (log s) + submitting s + List.length (unhandled s))%nat
  /\ (count is_relay (log s) + submitting s <= List.length (submits (log s)))%nat
  /\ (List.length (submits (log s)) <= n)%nat.

(* ===================================================================== *)
(** ** Lemmas: lists *)
(* ===================================================================== *)

Lemma nth_error_snoc {A : Type} (l : list A) (x : A) :
  nth_error (l ++ [x]) (List.length l) = Some x.
Proof.
  induction l as [|y l IH]; simpl; auto.
Qed.

Lemma remove_nth_snoc {A : Type} (l : list A) (x : A) :
  remove_nth (List.length l) (l ++ [x]) = l.
Proof.
  induction l as [|y l IH]; simpl; [reflexivity | now rewrite IH].
Qed.

Lemma Forall_remove_nth {A : Type} (P : A -> Prop) (i : nat) (l : list A) :
  Forall P l -> Forall P (remove_nth i l).
Proof.
  revert i; induction l as [|y l IH]; intros i H.
  - destruct i; simpl; constructor.
  - inversion H; subst. destruct i; simpl; auto.
Qed.

Lemma filter_remove_nth {A : Type} (f : A -> bool) (i : nat) (l : list A) (x : A) :
  nth_error l i = Some x ->
  List.length (filter f l) =
  (List.length (filter f (remove_nth i l)) + (if f x then 1 else 0))%nat.
Proof.
  revert i; induction l as [|y l IH]; intros i H.
  - destruct i; discriminate.
  - destruct i; simpl in *.
    + inversion H; subst. destruct (f x); simpl; lia.
    + specialize (IH _ H). destruct (f y); simpl; lia.
Qed.

Lemma count_app (p : effect -> bool) (l1 l2 : list effect) :
  count p (l1 ++ l2) = (count p l1 + count p l2)%nat.
Proof.
  unfold count. now rewrite filter_app, length_app.
Qed.

Lemma posts_app (l1 l2 : list effect) : posts (l1 ++ l2) = posts l1 ++ posts l2.
Proof.
  induction l1 as [|x l1 IH]; simpl; [reflexivity|].
  destruct x; simpl; now rewrite ?IH.
Qed.

Lemma last_post_snoc (l : list effect) (c : PoWConfig) :
  last_post (l ++ [worker_postMessage c]) = Some c.
Proof.
  unfold last_post. rewrite posts_app, map_app. simpl.
  now rewrite last_last.
Qed.

Lemma last_post_silent (l d : list effect) :
  posts d = [] -> last_post (l ++ d) = last_post l.
Proof.
  intros H. unfold last_post. now rewrite posts_app, H, app_nil_r.
Qed.

(* ===================================================================== *)
(** ** Lemmas: one handler run *)
(* ===================================================================== *)

Section Runs.

Variable sitekey : string.

Lemma exec_solveCaptchaRunner (s : page) :
  exec solveCaptchaRunner s =
  park (FetchTask runner_resume)
    (emit fetchPoWConfig_call (emit messageText_during (write_LOCK true s))).
Proof. reflexivity. Qed.

Lemma exec_runner_resolved (c : PoWConfig) (s : page) :
  exec (runner_resume (Resolved c)) s =
  emit (worker_postMessage c) (write_config c s).
Proof. reflexivity. Qed.

Lemma exec_runner_rejected (e : error) (s : page) :
  exec (runner_resume (Rejected e)) s =
  write_LOCK false (emit (console_error e) (emit messageText_error s)).
Proof. reflexivity. Qed.

Lemma exec_result_resolved (tok : Token) (s : page) :
  exec (result_resume (Resolved tok)) s =
  write_LOCK false
    (emit messageText_after (emit (btn_checked true) (emit (sendToParent tok) s))).
Proof. reflexivity. Qed.

Lemma exec_result_rejected (e : error) (s : page) :
  exec (result_resume (Rejected e)) s = reject e s.
Proof. reflexivity. Qed.

Lemma onmessage_init (m : ServiceWorkerAction) :
  type m = "init" -> onmessage sitekey m = solveCaptchaRunner.
Proof.
  intros H. unfold onmessage. now rewrite H.
Qed.

Lemma onmessage_other (m : ServiceWorkerAction) :
  type m <> "init" -> type m <> "result" -> onmessage sitekey m = Ret tt.
Proof.
  intros Hi Hr. unfold onmessage.
  destruct (String.eqb_spec (type m) "init"); [contradiction|].
  destruct (String.eqb_spec (type m) "result"); [contradiction|].
  reflexivity.
Qed.

Lemma exec_onmessage_result (m : ServiceWorkerAction) (s : page) :
  type m = "result" ->
  exec (onmessage sitekey m) s =
  match config s, payload m with
  | Some c, Some w =>
      park (SendTask result_resume)
        (emit (sendWork_call (proof_of sitekey c (work w))) s)
  | Some _, None =>
      reject "TypeError: cannot read properties of undefined: work" s
  | None, _ =>
      reject "TypeError: cannot read properties of undefined: string" s
  end.
Proof.
  intros H. unfold onmessage. rewrite H. simpl.
  destruct (config s) as [c|]; [|reflexivity].
  destruct (payload m) as [w|]; reflexivity.
Qed.

End Runs.

(* ===================================================================== *)
(** ** Lemmas: the transitions of the page *)
(* ===================================================================== *)

Section Transitions.

Variable sitekey : string.

Lemma known_nth (s : page) (i : nat) (t : task) :
  wf s -> nth_error (pending s) i = Some t -> known t.
Proof.
  intros H Ht.
  eapply Forall_forall; [exact H | eapply nth_error_In; exact Ht].
Qed.

(** [step] takes one of the transitions. *)
Lemma step_fired (ev : event) (s : page) :
  wf s -> fired sitekey s ev (step sitekey ev s).
Proof.
  intros H. destruct ev as [|m|i r]; unfold step.
  - rewrite exec_solveCaptchaRunner. constructor.
  - destruct (String.eqb_spec (type m) "init") as [Hi|Hi].
    + rewrite (onmessage_init _ _ Hi), exec_solveCaptchaRunner.
      now constructor.
    + destruct (String.eqb_spec (type m) "result") as [Hr|Hr].
      * rewrite (exec_onmessage_result _ _ _ Hr).
        destruct (config s) as [c|] eqn:Hc; [destruct (payload m) as [w|] eqn:Hw|].
        -- now apply fired_submit.
        -- apply fired_type_error; auto.
        -- apply fired_type_error; auto.
      * rewrite (onmessage_other _ _ Hi Hr). now constructor.
  - unfold settle.
    destruct (nth_error (pending s) i) as [t|] eqn:Ht; [|constructor].
    destruct (known_nth _ _ _ H Ht) as [-> | ->]; destruct r as [a|a];
      try constructor; destruct a; simpl; now constructor.
Qed.

Lemma wf_park (t : task) (s : page) : known t -> wf s -> wf (park t s).
Proof.
  unfold wf. simpl. intros Ht H.
  apply Forall_app; split; [assumption | constructor; [assumption | constructor]].
Qed.

Lemma wf_unpark (i : nat) (s : page) : wf s -> wf (unpark i s).
Proof.
  unfold wf. simpl. apply Forall_remove_nth.
Qed.

Lemma wf_step (ev : event) (s : page) : wf s -> wf (step sitekey ev s).
Proof.
  intros H.
  destruct (step_fired ev s H);
    try assumption;
    try (apply wf_park; [first [left; reflexivity | right; reflexivity] | exact H]);
    exact (wf_unpark _ _ H).
Qed.

Lemma wf_initial : wf initial.
Proof. constructor. Qed.

Lemma wf_run (evs : list event) (s : page) : wf s -> wf (run sitekey evs s).
Proof.
  revert s; induction evs as [|ev evs IH]; intros s H; simpl; auto.
  apply IH, wf_step, H.
Qed.

Lemma run_snoc (evs : list event) (ev : event) (s : page) :
  run sitekey (evs ++ [ev]) s = step sitekey ev (run sitekey evs s).
Proof.
  revert s; induction evs as [|x evs IH]; intros s; simpl; auto.
Qed.

End Transitions.

Lemma run_app (sitekey : string) (evs1 evs2 : list event) (s : page) :
  run sitekey (evs1 ++ evs2) s = run sitekey evs2 (run sitekey evs1 s).
Proof.
  revert s; induction evs1 as [|ev evs1 IH]; intros s; simpl; auto.
Qed.

(* ===================================================================== *)
(** ** Invariants of the runs from the initial page *)
(* ===================================================================== *)

Section Invariants.

Variable sitekey : string.

(** Relays made plus submissions still awaited never grow by more than the
    result messages received. *)
Lemma relay_budget_step (ev : event) (s : page) :
  wf s ->
  (count is_relay (log (step sitekey ev s)) + submitting (step sitekey ev s)
   <= count is_relay (log s) + submitting s
      + (if is_result_event ev then 1 else 0))%nat.
Proof.
  intros H.
  destruct (step_fired sitekey ev s H) as
    [ | m Hi | m c w Hr Hc Hw | m e Hr Hn | m Hi Hr
    | i c Ht | i e Ht | i tok Ht | i e Ht | i r ];
    unfold submitting; simpl;
    rewrite ?count_app, ?filter_app, ?length_app; unfold count; simpl;
    try rewrite (filter_remove_nth is_send_task i _ _ Ht); simpl;
    try rewrite Hr; simpl;
    try match goal with |- context [if ?b then _ else _] => destruct b end; lia.
Qed.

Lemma relay_budget (evs : list event) :
  (count is_relay (log (run sitekey evs initial))
   + submitting (run sitekey evs initial)
   <= results_received evs)%nat.
Proof.
  induction evs as [|ev evs IH] using rev_ind.
  - simpl. unfold submitting, count. simpl. lia.
  - rewrite run_snoc.
    pose proof (relay_budget_step ev _ (wf_run sitekey evs _ wf_initial)) as Hs.
    unfold results_received in *.
    rewrite filter_app, length_app. simpl.
    destruct (is_result_event ev); simpl in *; lia.
Qed.

(** The stored config is the one most recently posted to the Worker. *)
Lemma config_last_post_step (ev : event) (s : page) :
  wf s -> config s = last_post (log s) ->
  config (step sitekey ev s) = last_post (log (step sitekey ev s)).
Proof.
  intros H Hinv.
  destruct (step_fired sitekey ev s H); simpl;
    rewrite <- ?app_assoc;
    try (rewrite last_post_silent by reflexivity; exact Hinv);
    try exact Hinv.
  now rewrite last_post_snoc.
Qed.

Lemma config_last_post (evs : list event) :
  config (run sitekey evs initial) = last_post (log (run sitekey evs initial)).
Proof.
  induction evs as [|ev evs IH] using rev_ind.
  - reflexivity.
  - rewrite run_snoc.
    apply config_last_post_step; [apply wf_run, wf_initial | exact IH].
Qed.

End Invariants.

(* ===================================================================== *)
(** ** The guard flag and the entry point *)
(* ===================================================================== *)

Import Fixture.

(** C1 (the code differs): [solveCaptchaRunner] writes [LOCK] but never
    reads it.  Called on any page, also one whose [LOCK] is true, it sets
    [LOCK], shows the during-message and issues a config fetch.  Two calls
    in a row give two config fetches, and once both fetches resolve two
    challenges are posted to the Worker. *)
Theorem solveCaptchaRunner_ignores_LOCK (sitekey : string) :
  (forall s : page,
     step sitekey Trigger s =
     park (FetchTask runner_resume)
       (emit fetchPoWConfig_call (emit messageText_during (write_LOCK true s))))
  /\ LOCK (run sitekey [Trigger] initial) = true
  /\ count is_fetch (log (run sitekey [Trigger; Trigger] initial)) = 2%nat
  /\ posts (log (run sitekey
                   [Trigger; Trigger;
                    Settles 0 (ConfigResponse (Resolved k1_salt1));
                    Settles 0 (ConfigResponse (Resolved k1_salt2))]
                   initial))
     = [k1_salt1; k1_salt2].
Proof.
  repeat split; reflexivity.
Qed.

(** C2 (the code differs): the ["result"] branch awaits [sendWork] under no
    [try].  When the submission is rejected the handler ends there with an
    unhandled rejection: no token is relayed, but no error message is shown
    and [LOCK] is not written, so it stays true. *)
Theorem sendWork_failure_keeps_LOCK (sitekey : string) :
  (forall (e : error) (s : page),
     exec (result_resume (Rejected e)) s = reject e s)
  /\ let s := run sitekey
                [WorkerMessage init;
                 Settles 0 (ConfigResponse (Resolved k1_salt1));
                 WorkerMessage (found 42 "abc");
                 Settles 0 (TokenResponse (Rejected "expired"))]
                initial in
     LOCK s = true
     /\ count is_error_indicator (log s) = 0%nat
     /\ count is_release (log s) = 0%nat
     /\ count is_relay (log s) = 0%nat
     /\ unhandled s = ["expired"]
     /\ pending s = [].
Proof.
  repeat split; reflexivity.
Qed.



(** C6: when the config fetch awaited by [solveCaptchaRunner] is rejected,
    the catch branch shows the error message, logs the error and sets
    [LOCK = false]; nothing is left unhandled, the parked handler is gone,
    and a new call of [solveCaptchaRunner] on the page so reached issues a
    new config fetch. *)
Theorem config_fetch_failure_releases_guard
  (sitekey : string) (s : page) (i : nat) (e : error) :
  nth_error (pending s) i = Some (FetchTask runner_resume) ->
  let s' := step sitekey (Settles i (ConfigResponse (Rejected e))) s in
  let s'' := step sitekey Trigger s' in
  log s' = log s ++ [messageText_error; console_error e; WriteLOCK false]
  /\ LOCK s' = false
  /\ unhandled s' = unhandled s
  /\ pending s' = remove_nth i (pending s)
  /\ log s'' = log s' ++ [WriteLOCK true; messageText_during; fetchPoWConfig_call]
  /\ pending s'' = pending s' ++ [FetchTask runner_resume].
Proof.
  intros H s' s''. subst s'' s'. unfold step, settle. rewrite H.
  rewrite exec_runner_rejected, exec_solveCaptchaRunner. simpl.
  repeat split; now rewrite <- ?app_assoc.
Qed.

Lemma config_fetch_failure_releases_guard_witness :
  let s := step "k1" Trigger initial in
  let s' := step "k1" (Settles 0 (ConfigResponse (Rejected "network"))) s in
  let s'' := step "k1" Trigger s' in
  log s' = log s ++ [messageText_error; console_error "network"; WriteLOCK false]
  /\ LOCK s' = false
  /\ unhandled s' = unhandled s
  /\ pending s' = remove_nth 0 (pending s)
  /\ log s'' = log s' ++ [WriteLOCK true; messageText_during; fetchPoWConfig_call]
  /\ pending s'' = pending s' ++ [FetchTask runner_resume].
Proof.
  apply (config_fetch_failure_releases_guard
           "k1" (step "k1" Trigger initial) 0 "network").
  reflexivity.
Defined.

(* ===================================================================== *)
(** ** Messages from the Worker *)
(* ===================================================================== *)

(** C9: a Worker message whose tag is neither ["init"] nor ["result"] (such
    as a progress message) leaves the page as it was: [LOCK], the stored
    config, the parked handlers and the log are unchanged and no rejection
    is raised. *)
Theorem unknown_message_is_noop
  (sitekey : string) (m : ServiceWorkerAction) (s : page) :
  String.eqb (type m) "init" = false ->
  String.eqb (type m) "result" = false ->
  step sitekey (WorkerMessage m) s = s.
Proof.
  intros Hi Hr. unfold step, onmessage. now rewrite Hi, Hr.
Qed.

Lemma unknown_message_is_noop_witness :
  let s := run "k1" [WorkerMessage init;
                     Settles 0 (ConfigResponse (Resolved k1_salt1))] initial in
  step "k1" (WorkerMessage (Worker.progressCallback 7)) s = s.
Proof.
  apply (unknown_message_is_noop "k1" (Worker.progressCallback 7)).
  - reflexivity.
  - reflexivity.
Defined.

(** C7, as the claim has it, fails: the message tagged ["ready"] starts
    nothing. *)
Lemma ready_starts_no_cycle :
  let s := step "site-key" (WorkerMessage Worker.ready) initial in
  count is_fetch (log s) = 0%nat /\ LOCK s = false /\ pending s = [].
Proof.
  repeat split.
Qed.

(** C7 (amended): it is the Worker's ["init"] message that starts a solve
    cycle: handling it is a call of [solveCaptchaRunner], which sets [LOCK],
    shows the during-message and issues the config fetch.  The ["ready"]
    message is ignored.  The Worker posts ["ready"] and then ["init"] when it
    starts, and delivering both to the initial page issues exactly the one
    config fetch, at ["init"]. *)
Theorem init_starts_cycle
  (sitekey : string) (s : page) (m : ServiceWorkerAction) :
  type m = "init" ->
  step sitekey (WorkerMessage m) s = step sitekey Trigger s
  /\ log (step sitekey (WorkerMessage m) s) =
     log s ++ [WriteLOCK true; messageText_during; fetchPoWConfig_call]
  /\ step sitekey (WorkerMessage Worker.ready) s = s
  /\ log (run sitekey (map WorkerMessage Worker.startup) initial) =
     [WriteLOCK true; messageText_during; fetchPoWConfig_call].
Proof.
  intros H. unfold step at 1 3. rewrite (onmessage_init _ _ H).
  repeat split.
  simpl. now rewrite <- !app_assoc.
Qed.

Lemma init_starts_cycle_witness :
  step "k1" (WorkerMessage init) initial = step "k1" Trigger initial
  /\ log (step "k1" (WorkerMessage init) initial) =
     log initial ++ [WriteLOCK true; messageText_during; fetchPoWConfig_call]
  /\ step "k1" (WorkerMessage Worker.ready) initial = initial
  /\ log (run "k1" (map WorkerMessage Worker.startup) initial) =
     [WriteLOCK true; messageText_during; fetchPoWConfig_call].
Proof.
  apply (init_starts_cycle "k1" initial init).
  reflexivity.
Defined.

(* ===================================================================== *)
(** ** Submission and relay *)
(* ===================================================================== *)

(** C4: when the submission awaited by the ["result"] branch resolves with a
    token, that one event relays the token to the parent, checks the
    checkbox, shows the after-message and sets [LOCK = false], in this
    order; the parked handler is gone, so it relays once.  In a run from
    the initial page the relays made, together with the submissions still
    awaited, never outnumber the result messages received from the Worker:
    no token is relayed before its result message. *)
Theorem token_relayed_once_after_result
  (sitekey : string) (evs : list event) (i : nat) (tok : Token) :
  nth_error (pending (run sitekey evs initial)) i = Some (SendTask result_resume) ->
  let s := run sitekey evs initial in
  let s' := step sitekey (Settles i (TokenResponse (Resolved tok))) s in
  log s' = log s ++ [sendToParent tok; btn_checked true; messageText_after;
                     WriteLOCK false]
  /\ LOCK s' = false
  /\ count is_relay (log s') = S (count is_relay (log s))
  /\ pending s' = remove_nth i (pending s)
  /\ (count is_relay (log s') + submitting s' <= results_received evs)%nat.
Proof.
  intros H s s'.
  change (nth_error (pending s) i = Some (SendTask result_resume)) in H.
  pose proof (relay_budget sitekey evs) as Hb. fold s in Hb.
  assert (Hs' : s' = write_LOCK false
                       (emit messageText_after
                          (emit (btn_checked true)
                             (emit (sendToParent tok) (unpark i s))))).
  { subst s'. unfold step, settle. now rewrite H. }
  assert (Hlog : log s' = log s ++ [sendToParent tok; btn_checked true;
                                    messageText_after; WriteLOCK false]).
  { rewrite Hs'. simpl. now rewrite <- !app_assoc. }
  assert (Hrel : count is_relay (log s') = S (count is_relay (log s))).
  { rewrite Hlog, count_app. unfold count. simpl. lia. }
  repeat split.
  - exact Hlog.
  - now rewrite Hs'.
  - exact Hrel.
  - now rewrite Hs'.
  - rewrite Hrel. unfold submitting in *. rewrite Hs'. simpl.
    rewrite (filter_remove_nth is_send_task i _ _ H) in Hb. simpl in Hb. lia.
Qed.

Lemma token_relayed_once_after_result_witness :
  let evs := [WorkerMessage init;
              Settles 0 (ConfigResponse (Resolved k1_salt1));
              WorkerMessage (found 42 "abc")] in
  let s := run "k1" evs initial in
  let s' := step "k1" (Settles 0 (TokenResponse (Resolved tok_789))) s in
  log s' = log s ++ [sendToParent tok_789; btn_checked true; messageText_after;
                     WriteLOCK false]
  /\ LOCK s' = false
  /\ count is_relay (log s') = S (count is_relay (log s))
  /\ pending s' = remove_nth 0 (pending s)
  /\ (count is_relay (log s') + submitting s' <= results_received evs)%nat.
Proof.
  apply (token_relayed_once_after_result
           "k1"
           [WorkerMessage init;
            Settles 0 (ConfigResponse (Resolved k1_salt1));
            WorkerMessage (found 42 "abc")]
           0 tok_789).
  reflexivity.
Defined.





(* ===================================================================== *)
(** ** The Worker *)
(* ===================================================================== *)

(** C3 (the code differs): the handler of the Worker never runs the search.
    For every challenge it throws on its read of [work], which nothing
    binds, before its only [postMessage]: no result event is posted, for
    one challenge or for any sequence of them. *)
Theorem worker_handler_posts_no_result :
  (forall config : PoWConfig,
     Worker.handle (Worker.onmessage config) =
     {| Worker.posted := [];
        Worker.rejected := Some "ReferenceError: work is not defined" |})
  /\ forall requests : list PoWConfig,
       filter Worker.is_result (Worker.serve requests) = [].
Proof.
  split; [reflexivity|].
  intros requests. unfold Worker.serve, Worker.runs.
  rewrite filter_app. simpl.
  induction requests as [|c requests IH]; [reflexivity | exact IH].
Qed.




(* ===================================================================== *)
(** ** Further properties: accounting over whole runs *)
(* ===================================================================== *)

Lemma submits_app (l1 l2 : list effect) :
  submits (l1 ++ l2) = submits l1 ++ submits l2.
Proof.
  induction l1 as [|x l1 IH]; simpl; [reflexivity|].
  destruct x; simpl; now rewrite ?IH.
Qed.

Lemma relayed_app (l1 l2 : list effect) :
  relayed (l1 ++ l2) = relayed l1 ++ relayed l2.
Proof.
  induction l1 as [|x l1 IH]; simpl; [reflexivity|].
  destruct x; simpl; now rewrite ?IH.
Qed.

Lemma is_result_event_message (m : ServiceWorkerAction) :
  is_result_event (WorkerMessage m) = true <-> type m = "result".
Proof.
  simpl. apply String.eqb_eq.
Qed.

Section Accounting.

Variable sitekey : string.

Lemma fetches_balanced_step (ev : event) (s : page) :
  wf s -> fetches_balanced s -> fetches_balanced (step sitekey ev s).
Proof.
  unfold fetches_balanced, fetching. intros H Hb.
  destruct (step_fired sitekey ev s H) as
    [ | m Hi | m c w Hr Hc Hw | m e Hr Hn | m Hi Hr
    | i c Ht | i e Ht | i tok Ht | i e Ht | i r ];
    simpl;
    rewrite ?posts_app, ?count_app, ?filter_app, ?length_app;
    unfold count in *; simpl;
    try rewrite (filter_remove_nth is_fetch_task i _ _ Ht) in Hb;
    simpl in Hb; lia.
Qed.

Lemma results_balanced_step (ev : event) (s : page) (n : nat) :
  wf s -> results_balanced s n ->
  results_balanced (step sitekey ev s)
    (n + (if is_result_event ev then 1 else 0)).
Proof.
  unfold results_balanced, submitting. intros H (Hn & Hlo & Hhi).
  destruct (step_fired sitekey ev s H) as
    [ | m Hi | m c w Hr Hc Hw | m e Hr Hn' | m Hi Hr
    | i c Ht | i e Ht | i tok Ht | i e Ht | i r ];
    simpl;
    rewrite ?submits_app, ?count_app, ?filter_app, ?length_app;
    unfold count in *; simpl;
    try rewrite (filter_remove_nth is_send_task i _ _ Ht) in *;
    simpl in *;
    try rewrite Hr; try rewrite Hi; simpl;
    try (destruct (String.eqb_spec (type m) "result"); [contradiction|]);
    lia.
Qed.

End Accounting.

(** X1: every config fetch issued is answered once.  In every run from the
    initial page the calls of [fetchPoWConfig] made so far are as many as
    the challenges posted to the Worker, plus the error messages shown,
    plus the fetches still awaited. *)
Theorem every_fetch_answered_once (sitekey : string) (evs : list event) :
  let s := run sitekey evs initial in
  count is_fetch (log s) =
  (List.length (posts (log s)) + count is_error_indicator (log s)
   + fetching s)%nat.
Proof.
  induction evs as [|ev evs IH] using rev_ind.
  - reflexivity.
  - rewrite run_snoc.
    apply fetches_balanced_step; [apply wf_run, wf_initial | exact IH].
Qed.

(** X2: every result message is accounted for.  In every run from the
    initial page the result messages received from the Worker are as many
    as the tokens relayed, plus the submissions still awaited, plus the
    rejections left unhandled; [sendWork] has been called at most once per
    result message, and at least once per token relayed or submission
    awaited. *)
Theorem every_result_accounted_for (sitekey : string) (evs : list event) :
  let s := run sitekey evs initial in
  results_received evs =
  (count is_relay (log s) + submitting s + List.length (unhandled s))%nat
  /\ (count is_relay (log s) + submitting s <= List.length (submits (log s)))%nat
  /\ (List.length (submits (log s)) <= results_received evs)%nat.
Proof.
  induction evs as [|ev evs IH] using rev_ind.
  - simpl. repeat split; reflexivity.
  - rewrite run_snoc. unfold results_received.
    rewrite filter_app, length_app.
    replace (List.length (filter is_result_event [ev]))
      with (if is_result_event ev then 1%nat else 0%nat)
      by (simpl; now destruct (is_result_event ev)).
    apply results_balanced_step; [apply wf_run, wf_initial | exact IH].
Qed.

(* ===================================================================== *)
(** ** Further properties: the ["result"] branch with nothing stored *)
(* ===================================================================== *)

(** X3: a result message that arrives before any challenge has been posted
    to the Worker finds [config] undefined.  Reading [config.string]
    throws: the handler ends with an unhandled [TypeError], [sendWork] is
    not called, and [LOCK], the parked handlers and the log stay as they
    were. *)
Theorem result_before_any_challenge
  (sitekey : string) (evs : list event) (m : ServiceWorkerAction) :
  type m = "result" ->
  posts (log (run sitekey evs initial)) = [] ->
  let s := run sitekey evs initial in
  step sitekey (WorkerMessage m) s =
  reject "TypeError: cannot read properties of undefined: string" s.
Proof.
  intros Ht Hp s. unfold step.
  rewrite (exec_onmessage_result _ _ _ Ht).
  assert (Hc : config s = None).
  { subst s. rewrite config_last_post. unfold last_post. now rewrite Hp. }
  now rewrite Hc.
Qed.

Lemma result_before_any_challenge_witness :
  let s := run "k1" [Trigger] initial in
  step "k1" (WorkerMessage (found 42 "abc")) s =
  reject "TypeError: cannot read properties of undefined: string" s.
Proof.
  apply (result_before_any_challenge "k1" [Trigger] (found 42 "abc")).
  - reflexivity.
  - reflexivity.
Defined.

(* ===================================================================== *)
(** ** Further properties: cycles run one after the other *)
(* ===================================================================== *)

Lemma run_cycle (sitekey : string) (c : PoWConfig) (w : WasmWork) (tok : Token)
  (s : page) :
  pending s = [] ->
  run sitekey (cycle (c, w, tok)) s =
  {| LOCK := false;
     config := Some c;
     pending := [];
     log := log s ++ [WriteLOCK true; messageText_during; fetchPoWConfig_call;
                      worker_postMessage c;
                      sendWork_call (proof_of sitekey c w);
                      sendToParent tok; btn_checked true; messageText_after;
                      WriteLOCK false];
     unhandled := unhandled s |}.
Proof.
  destruct s as [lk cf pd lg un]. cbn [pending]. intros ->.
  cbn [cycle run step].
  rewrite exec_solveCaptchaRunner.
  unfold settle at 2. cbn [pending park emit write_LOCK app nth_error].
  rewrite exec_runner_resolved.
  rewrite (exec_onmessage_result sitekey (result_message w) _ eq_refl).
  unfold result_message.
  cbn [config payload emit write_config unpark work].
  unfold settle. cbn [pending park emit app nth_error remove_nth unpark write_config write_LOCK LOCK config log unhandled].
  rewrite exec_result_resolved.
  cbn [pending park emit app nth_error remove_nth unpark write_config write_LOCK LOCK config log unhandled].
  cbv [write_LOCK emit unpark park write_config
       LOCK config pending log unhandled].
  cbn [app remove_nth].
  rewrite <- !app_assoc. reflexivity.
Qed.

(** X4: cycles that do not overlap keep solution and challenge together.
    When solve cycles run one after the other from the initial page, each
    to its successful end, the page is idle again afterwards ([LOCK] false,
    nothing parked, nothing unhandled); the challenges were posted to the
    Worker in order, one proof was submitted per cycle, built from that
    cycle's challenge and that cycle's work, and one token was relayed per
    cycle, in order. *)
Theorem sequential_cycles
  (sitekey : string) (cycles : list (PoWConfig * WasmWork * Token)) :
  let s := run sitekey (flat_map cycle cycles) initial in
  LOCK s = false
  /\ pending s = []
  /\ unhandled s = []
  /\ posts (log s) = map (fun x => fst (fst x)) cycles
  /\ submits (log s) =
     map (fun x => proof_of sitekey (fst (fst x)) (snd (fst x))) cycles
  /\ relayed (log s) = map snd cycles.
Proof.
  induction cycles as [|[[c w] tok] cycles IH] using rev_ind.
  - repeat split.
  - destruct IH as (_ & Hpend & Hun & Hposts & Hsub & Hrel).
    rewrite flat_map_app, run_app. cbn [flat_map]. rewrite app_nil_r.
    rewrite (run_cycle sitekey c w tok _ Hpend). cbn [LOCK pending unhandled log].
    rewrite posts_app, submits_app, relayed_app, !map_app.
    rewrite Hposts, Hsub, Hrel.
    repeat split; assumption.
Qed.

(* ===================================================================== *)
(** ** Further properties: loading the script *)
(* ===================================================================== *)

Lemma widget_run_failed (sitekey : string) (evs : list event) (w : widget) :
  load_error w <> None -> widget_run sitekey evs w = w.
Proof.
  intros H. induction evs as [|ev evs IH]; simpl; [reflexivity|].
  unfold widget_step. destruct (load_error w); [exact IH | contradiction].
Qed.

(** X5: without its container the widget never starts.  When the document
    has no [.widget__verification-container] element, the evaluation of the
    script throws in [registerVerificationEventHandler], before
    [worker.onmessage] is assigned: whatever the Worker posts afterwards,
    the document is untouched and the Orchestrator makes no call at all. *)
Theorem load_without_container
  (sitekey : string) (doc : document) (msgs : list ServiceWorkerAction) :
  verification_container doc = None ->
  let w := widget_run sitekey (map WorkerMessage msgs) (load doc) in
  load_error w = Some "TypeError: cannot read properties of null: style"
  /\ dom w = doc
  /\ orchestrator w = initial.
Proof.
  intros H w. subst w. unfold load, registerVerificationEventHandler.
  rewrite H. rewrite widget_run_failed by discriminate.
  repeat split.
Qed.

Lemma load_without_container_witness :
  let w := widget_run "k1" (map WorkerMessage Worker.startup)
             (load {| verification_container := None |}) in
  load_error w = Some "TypeError: cannot read properties of null: style"
  /\ dom w = {| verification_container := None |}
  /\ orchestrator w = initial.
Proof.
  apply (load_without_container
           "k1" {| verification_container := None |} Worker.startup).
  reflexivity.
Defined.

(* ===================================================================== *)
(** ** Further properties: the Worker and the Orchestrator together *)
(* ===================================================================== *)

(** X8: the Worker as written leaves the widget waiting.  Its handler
    posts nothing for the challenge it is sent, so after the start-up
    messages and a successful config fetch the Orchestrator is left with
    [LOCK] true, the during-message showing, the challenge stored, no error
    message, and no parked handler: no promise that settles can change the
    page any more. *)
Theorem silent_worker_leaves_widget_waiting
  (sitekey : string) (c : PoWConfig) :
  let s := run sitekey
             (map WorkerMessage Worker.startup
              ++ [Settles 0 (ConfigResponse (Resolved c))]
              ++ map WorkerMessage
                   (Worker.posted (Worker.handle (Worker.onmessage c))))
             initial in
  log s = [WriteLOCK true; messageText_during; fetchPoWConfig_call;
           worker_postMessage c]
  /\ LOCK s = true
  /\ config s = Some c
  /\ pending s = []
  /\ unhandled s = []
  /\ forall (i : nat) (r : response), step sitekey (Settles i r) s = s.
Proof.
  intros s. subst s.
  repeat split.
  intros i r. destruct i; reflexivity.
Qed.
